(** * greenlet_internal.hpp: ownership wrappers and the GIL-scoped allocator

    A shallow embedding of [src/greenlet/greenlet_internal.hpp]: the
    [PythonAllocator] template, the [TypeError] exception, the reference
    wrappers [BorrowedReference], [BorrowedGreenlet], [APIResult] and
    [OutParam].

    The header is a thin layer over the CPython C API.  The part of the
    interpreter it talks to (reference counts, the two allocator domains, the
    error indicator) is modelled as an explicit [Host] state; every member
    function of the header is a computation over that state which may return
    normally, leave by a C++ exception, or run into undefined behaviour. *)

From stdpp Require Import gmap strings list fin_maps.
From Stdlib Require Import ZArith Lia.

Local Open Scope Z_scope.

(** ** Pointers and [size_t] *)

(** A non-null address.  A C pointer is an optional address, [None] being
    [nullptr]. *)
Definition addr := positive.
Abbreviation ptr := (option addr).
Definition nullptr : ptr := None.

(** [size_t] is 64 bits wide (LP64); unsigned arithmetic wraps around. *)
Definition SIZE_WIDTH : Z := 64.
Definition size_t_wrap (z : Z) : Z := z mod 2 ^ SIZE_WIDTH.
Definition size_t_mul (a b : Z) : Z := size_t_wrap (a * b).

(** ** The host interpreter *)

(** The two allocator families of the interpreter the header uses:
    [PyMem_Malloc]/[PyMem_Free] and [PyObject_Malloc]/[PyObject_Free].  A block
    must be released by the family that handed it out. *)
Inductive PyMemAllocatorDomain := PYMEM_DOMAIN_MEM | PYMEM_DOMAIN_OBJ.

Global Instance PyMemAllocatorDomain_eq_dec : EqDecision PyMemAllocatorDomain.
Proof. solve_decision. Defined.

(** [PyObject_HEAD]: the reference count and the type pointer. *)
Record PyObject := mkPyObject {
  ob_refcnt : Z;
  ob_type : addr
}.

(** The error indicator: the pending exception's type (by name) and its
    message. *)
Record PyErr := mkPyErr {
  curexc_type : string;
  curexc_value : string
}.

Global Instance PyErr_eq_dec : EqDecision PyErr.
Proof. solve_decision. Defined.

Definition PyExc_TypeError : string := "TypeError".

(** What the header asks of the interpreter, and the destructor calls it
    makes, recorded in program order. *)
Inductive event :=
  | Call_PyObject_Malloc (size : Z) (ret : ptr)
  | Call_PyMem_Malloc (size : Z) (ret : ptr)
  | Call_PyObject_Free (p : ptr)
  | Call_PyMem_Free (p : ptr)
  | Call_Py_INCREF (o : addr)
  | Call_Py_DECREF (o : addr)
  | Call_PyErr_SetString (type : string) (message : string)
  | Call_destructor (p : ptr).

Global Instance event_eq_dec : EqDecision event.
Proof. solve_decision. Defined.

Record Host := mkHost {
  objects : gmap addr PyObject;                     (* live counted objects *)
  blocks : gmap addr (PyMemAllocatorDomain * Z);    (* live allocator blocks *)
  capacity : Z;                                     (* bytes left to hand out *)
  curexc : option PyErr;                            (* the error indicator *)
  events : list event                               (* calls made so far *)
}.

Definition set_objects (f : gmap addr PyObject → gmap addr PyObject) (h : Host) : Host :=
  mkHost (f (objects h)) (blocks h) (capacity h) (curexc h) (events h).
Definition set_blocks
    (f : gmap addr (PyMemAllocatorDomain * Z) → gmap addr (PyMemAllocatorDomain * Z))
    (h : Host) : Host :=
  mkHost (objects h) (f (blocks h)) (capacity h) (curexc h) (events h).
Definition set_capacity (c : Z) (h : Host) : Host :=
  mkHost (objects h) (blocks h) c (curexc h) (events h).
Definition set_curexc (e : option PyErr) (h : Host) : Host :=
  mkHost (objects h) (blocks h) (capacity h) e (events h).
Definition record (e : event) (h : Host) : Host :=
  mkHost (objects h) (blocks h) (capacity h) (curexc h) (events h ++ [e]).

(** The reference count of the object at [a]; a deallocated object has
    none left. *)
Definition refcnt (h : Host) (a : addr) : Z :=
  match objects h !! a with
  | Some o => ob_refcnt o
  | None => 0
  end.

(** ** Computations *)

(** C++ exceptions thrown by the header. *)
Inductive exception :=
  | Exc_TypeError (what : string).

(** Misuse of the host API: the C program has no defined behaviour. *)
Inductive fault :=
  | UseAfterFree (a : addr)
  | InvalidFree (a : addr)
  | DomainMismatch (a : addr).

Inductive outcome (A : Type) :=
  | Done (a : A) (h : Host)
  | Thrown (e : exception) (h : Host)
  | Undefined (f : fault).
Arguments Done {A} a h.
Arguments Thrown {A} e h.
Arguments Undefined {A} f.

Definition M (A : Type) : Type := Host → outcome A.

Definition ret {A} (a : A) : M A := λ h, Done a h.
Definition bind {A B} (m : M A) (k : A → M B) : M B := λ h,
  match m h with
  | Done a h' => k a h'
  | Thrown e h' => Thrown e h'
  | Undefined f => Undefined f
  end.
Definition throw {A} (e : exception) : M A := λ h, Thrown e h.

Declare Scope host_scope.
Delimit Scope host_scope with host.
Notation "x <- m ;; k" := (bind m (λ x, k))
  (at level 100, m at next level, right associativity) : host_scope.
Notation "m ;; k" := (bind m (λ _, k))
  (at level 100, right associativity) : host_scope.
Local Open Scope host_scope.

(** ** Host primitives *)

(** [Py_INCREF(op)]: [op->ob_refcnt++]. *)
Definition Py_INCREF (a : addr) : M () := λ h,
  match objects h !! a with
  | Some o =>
      Done () (record (Call_Py_INCREF a)
                 (set_objects <[a := mkPyObject (ob_refcnt o + 1) (ob_type o)]> h))
  | None => Undefined (UseAfterFree a)
  end.

(** [Py_DECREF(op)]: [if (--op->ob_refcnt == 0) _Py_Dealloc(op)]. *)
Definition Py_DECREF (a : addr) : M () := λ h,
  match objects h !! a with
  | Some o =>
      let n := ob_refcnt o - 1 in
      Done () (record (Call_Py_DECREF a)
                 (set_objects (if n =? 0 then delete a
                               else <[a := mkPyObject n (ob_type o)]>) h))
  | None => Undefined (UseAfterFree a)
  end.

(** [Py_XINCREF], [Py_XDECREF]: the same, and nothing on [NULL]. *)
Definition Py_XINCREF (p : ptr) : M () :=
  match p with
  | Some a => Py_INCREF a
  | None => ret ()
  end.

Definition Py_XDECREF (p : ptr) : M () :=
  match p with
  | Some a => Py_DECREF a
  | None => ret ()
  end.

(** [PyErr_Occurred()]: the type of the pending exception, or [NULL]. *)
Definition PyErr_Occurred : M (option string) := λ h,
  Done (curexc_type <$> curexc h) h.

(** [PyErr_SetString(type, message)]: sets the error indicator. *)
Definition PyErr_SetString (type message : string) : M () := λ h,
  Done () (record (Call_PyErr_SetString type message)
             (set_curexc (Some (mkPyErr type message)) h)).

(** Both allocator families refuse a request above [PY_SSIZE_T_MAX] and a
    request that exceeds what is left, returning [NULL]; otherwise they hand
    out an address nothing else lives at. *)
Definition PY_SSIZE_T_MAX : Z := 2 ^ 63 - 1.

Definition fresh_addr (h : Host) : addr :=
  fresh (dom (blocks h) ∪ dom (objects h)).

Definition host_malloc (d : PyMemAllocatorDomain) (size : Z) (h : Host) : ptr * Host :=
  if (size <=? PY_SSIZE_T_MAX) && (size <=? capacity h) then
    let a := fresh_addr h in
    (Some a, set_capacity (capacity h - size) (set_blocks <[a := (d, size)]> h))
  else
    (None, h).

Definition PyObject_Malloc (size : Z) : M ptr := λ h,
  let '(p, h') := host_malloc PYMEM_DOMAIN_OBJ size h in
  Done p (record (Call_PyObject_Malloc size p) h').

Definition PyMem_Malloc (size : Z) : M ptr := λ h,
  let '(p, h') := host_malloc PYMEM_DOMAIN_MEM size h in
  Done p (record (Call_PyMem_Malloc size p) h').

(** Releasing [NULL] does nothing; releasing a block needs it to be live and
    to come from the same family. *)
Definition host_free (d : PyMemAllocatorDomain) (p : ptr) (h : Host) : outcome () :=
  match p with
  | None => Done () h
  | Some a =>
      match blocks h !! a with
      | Some (d', size) =>
          if decide (d = d') then
            Done () (set_capacity (capacity h + size) (set_blocks (delete a) h))
          else Undefined (DomainMismatch a)
      | None => Undefined (InvalidFree a)
      end
  end.

Definition PyObject_Free (p : ptr) : M () := λ h,
  host_free PYMEM_DOMAIN_OBJ p (record (Call_PyObject_Free p) h).

Definition PyMem_Free (p : ptr) : M () := λ h,
  host_free PYMEM_DOMAIN_MEM p (record (Call_PyMem_Free p) h).

(** ** [PythonAllocator<T>] *)

(** What the template needs of its parameter [T]: [sizeof(T)] and the
    destructor [T::~T()], run on the object stored at an address. *)
Class CxxType := mkCxxType {
  sizeof : Z;
  destructor : ptr → M ()
}.

Module PythonAllocator.
Section WithT.
Context {T : CxxType}.

(** [T* allocate(size_t number_objects, const void* hint=0)] *)
Definition allocate (number_objects : Z) : M ptr :=
  if number_objects =? 1 then
    PyObject_Malloc sizeof
  else
    PyMem_Malloc (size_t_mul sizeof number_objects).

(** [void deallocate(T* t, size_t n)] *)
Definition deallocate (t : ptr) (n : Z) : M () :=
  if n =? 1 then
    PyObject_Free t
  else
    PyMem_Free t.

(** [std::allocator<T>::destroy(p)]: [p->~T()]. *)
Definition destroy (p : ptr) : M () := λ h,
  destructor p (record (Call_destructor p) h).

(** [void dispose(T* other)] *)
Definition dispose (other : ptr) : M () :=
  destroy other ;;
  deallocate other 1.

End WithT.
End PythonAllocator.

(** ** [class TypeError : public std::runtime_error] *)

Module TypeError.

Record t := mk { what : string }.

(** [TypeError(const char* const what)] *)
Definition new (what : string) : M t :=
  occurred <- PyErr_Occurred ;;
  (if negb (bool_decide (is_Some occurred)) then
     PyErr_SetString PyExc_TypeError what
   else ret ()) ;;
  ret (mk what).

(** [throw TypeError(what)] *)
Definition raise {A} (what : string) : M A :=
  e <- new what ;;
  throw (Exc_TypeError (TypeError.what e)).

End TypeError.

(** ** [template <typename T=PyObject> class BorrowedReference] *)

Module BorrowedReference.

Record t := mk { p : ptr }.

(** [BorrowedReference(T* it) : p(it)] *)
Definition new (it : ptr) : M t := ret (mk it).

(** The implicit copy constructor copies the pointer member. *)
Definition copy (other : t) : M t := ret (mk (p other)).

(** [operator T*() const] *)
Definition to_ptr (this : t) : ptr := p this.

(** [T* operator->() const] *)
Definition arrow (this : t) : ptr := p this.

(** [bool operator==(const BorrowedReference& other) const] *)
Definition eq (this other : t) : bool := bool_decide (p other = p this).

(** [explicit operator bool() const] *)
Definition to_bool (this : t) : bool := negb (bool_decide (p this = nullptr)).

(** [void _set_raw_pointer(void* t)] *)
Definition _set_raw_pointer (this : t) (v : ptr) : t := mk v.

(** [void* _get_raw_pointer() const] *)
Definition _get_raw_pointer (this : t) : ptr := p this.

(** The class declares no destructor: the implicit one does nothing. *)
Definition delete (this : t) : M () := ret ().

(** The interface as data: one constructor per member of the class, the
    protected accessors included. *)
Inductive op :=
  | Construct (it : ptr)
  | Copy
  | ToPtr
  | Arrow
  | Eq (other : t)
  | ToBool
  | SetRawPointer (v : ptr)
  | GetRawPointer
  | Delete.

Inductive result :=
  | RRef (r : t)
  | RPtr (v : ptr)
  | RBool (b : bool)
  | RUnit.

Definition run (o : op) (this : t) : M result :=
  match o with
  | Construct it => r <- new it ;; ret (RRef r)
  | Copy => r <- copy this ;; ret (RRef r)
  | ToPtr => ret (RPtr (to_ptr this))
  | Arrow => ret (RPtr (arrow this))
  | Eq other => ret (RBool (eq this other))
  | ToBool => ret (RBool (to_bool this))
  | SetRawPointer v => ret (RRef (_set_raw_pointer this v))
  | GetRawPointer => ret (RPtr (_get_raw_pointer this))
  | Delete => delete this ;; ret RUnit
  end.

End BorrowedReference.

(** [typedef BorrowedReference<PyObject> BorrowedObject] *)
Abbreviation BorrowedObject := BorrowedReference.t.

(** ** [class BorrowedGreenlet : public BorrowedReference<PyGreenlet>] *)

Module BorrowedGreenlet.
Section WithCheck.

(** The macro [PyGreenlet_Check] comes from [greenlet.h]: whether the
    interpreter holds, at this handle, an object of the greenlet type family.
    It reads the interpreter's state and changes nothing. *)
Variable PyGreenlet_Check : ptr → Host → bool.

(** The base-class subobject is the only member. *)
Record t := mk { base : BorrowedReference.t }.

(** [BorrowedGreenlet() : BorrowedReference(nullptr)] *)
Definition new_default : M t :=
  b <- BorrowedReference.new nullptr ;;
  ret (mk b).

(** [BorrowedGreenlet(PyGreenlet* it) : BorrowedReference(it)] *)
Definition new_from_ptr (it : ptr) : M t :=
  b <- BorrowedReference.new it ;;
  ret (mk b).

(** [BorrowedGreenlet(const BorrowedObject& it) : BorrowedReference(nullptr)] *)
Definition new (it : BorrowedObject) : M t :=
  b <- BorrowedReference.new nullptr ;;
  (λ h,
     if negb (PyGreenlet_Check (BorrowedReference.to_ptr it) h) then
       TypeError.raise "Expected a greenlet" h
     else
       ret (mk (BorrowedReference._set_raw_pointer b (BorrowedReference.to_ptr it))) h).

(** Inherited members. *)
Definition to_ptr (this : t) : ptr := BorrowedReference.to_ptr (base this).
Definition arrow (this : t) : ptr := BorrowedReference.arrow (base this).
Definition to_bool (this : t) : bool := BorrowedReference.to_bool (base this).

End WithCheck.
End BorrowedGreenlet.

(** ** [class APIResult] *)

Module APIResult.

Record t := mk { p : ptr }.

(** [APIResult(PyObject* it) : p(it)] *)
Definition new (it : ptr) : M t := ret (mk it).

(** [APIResult(const APIResult& other) : p(other.p)] *)
Definition copy (other : t) : M t :=
  let this := mk (p other) in
  Py_XINCREF (p this) ;;
  ret this.

(** [~APIResult()] *)
Definition delete (this : t) : M () := Py_XDECREF (p this).

(** [explicit operator bool() const] *)
Definition to_bool (this : t) : bool := negb (bool_decide (p this = nullptr)).

End APIResult.

(** ** [class OutParam] *)

Module OutParam.

Record t := mk { p : ptr }.

(** [OutParam() : p(nullptr)] *)
Definition new : M t := ret (mk nullptr).

(** [PyObject** operator&()] and [operator PyObject**()]: the address of the
    member [p] of the object that lives at [self].  [p] is the only member,
    so this is the address of the object, and never null. *)
Definition slot (self : addr) (this : t) : ptr := Some self.

(** What a callee does with the slot: it stores through it, [*slot = v]. *)
Definition store (this : t) (v : ptr) : t := mk v.

(** [inline PyObject* disown()] *)
Definition disown (this : t) : ptr * t :=
  let result := p this in
  (result, mk nullptr).

(** [explicit operator bool() const] *)
Definition to_bool (this : t) : bool := negb (bool_decide (p this = nullptr)).

(** An [OutParam] used as a condition ([if (x)], [!x], [bool(x)]).  Both
    conversion functions are candidates.  On a non-const object the
    non-const [operator PyObject**()] is the better match for the implicit
    object parameter, and the pointer it returns converts to [bool]; on a
    const object only [operator bool() const] is viable. *)
Inductive cv := NonConst | Const.

Definition test (q : cv) (self : addr) (this : t) : bool :=
  match q with
  | NonConst => negb (bool_decide (slot self this = nullptr))
  | Const => to_bool this
  end.

(** [~OutParam()] *)
Definition delete (this : t) : M () := Py_XDECREF (p this).

End OutParam.

(** ** Clients of the wrappers *)

(** Uses of a family of [APIResult] values: copy-construct a new value from
    the [i]-th live one, or end the lifetime of the [i]-th live one.  A
    command naming a value that does not exist has nothing to act on. *)
Inductive api_cmd :=
  | ACopy (i : nat)
  | ADestroy (i : nat).

Fixpoint run_cmds (cs : list api_cmd) (live : list APIResult.t) : M (list APIResult.t) :=
  match cs with
  | [] => ret live
  | ACopy i :: cs' =>
      match live !! i with
      | Some x => y <- APIResult.copy x ;; run_cmds cs' (live ++ [y])
      | None => run_cmds cs' live
      end
  | ADestroy i :: cs' =>
      match live !! i with
      | Some x => APIResult.delete x ;; run_cmds cs' (delete i live)
      | None => run_cmds cs' live
      end
  end.

(** How many of the live values hold a reference to [a]. *)
Definition held (a : addr) (live : list APIResult.t) : Z :=
  Z.of_nat (length (filter (λ x, APIResult.p x = Some a) live)).

(** Every live value that holds a reference owns one count of it. *)
Definition owned (live : list APIResult.t) (h : Host) : Prop :=
  ∀ a, 0 < held a live → held a live ≤ refcnt h a.

(** How often an event occurs in a trace. *)
Definition occurrences (e : event) (evs : list event) : Z :=
  Z.of_nat (length (filter (λ e', e' = e) evs)).

Definition increfs (h : Host) (a : addr) : Z := occurrences (Call_Py_INCREF a) (events h).
Definition decrefs (h : Host) (a : addr) : Z := occurrences (Call_Py_DECREF a) (events h).

(** [k] calls of [disown] in a row, with what each returned. *)
Fixpoint disown_n (k : nat) (this : OutParam.t) : list ptr * OutParam.t :=
  match k with
  | O => ([], this)
  | S k' =>
      let '(r, this') := OutParam.disown this in
      let '(rs, this'') := disown_n k' this' in
      (r :: rs, this'')
  end.

(** A receiver that releases every reference it took. *)
Fixpoint release_all (rs : list ptr) : M () :=
  match rs with
  | [] => ret ()
  | r :: rs' => Py_XDECREF r ;; release_all rs'
  end.

(** How many of the pointers handed out are the reference [a]. *)
Definition handed_out (a : addr) (rs : list ptr) : Z :=
  Z.of_nat (length (filter (λ r, r = Some a) rs)).

(** ** Sample instances *)

(** A record type of 48 bytes with a trivial destructor. *)
Definition trivial_T : CxxType := mkCxxType 48 (λ _, ret ()).

(** The address of [PyGreenlet_Type]. *)
Definition PyGreenlet_Type : addr := 100%positive.

(** A type check by identity of the type pointer. *)
Definition exact_type_check (it : ptr) (h : Host) : bool :=
  match it with
  | Some a =>
      match objects h !! a with
      | Some o => bool_decide (ob_type o = PyGreenlet_Type)
      | None => false
      end
  | None => false
  end.

Definition empty_host : Host := mkHost ∅ ∅ 4096 None [].

(** A host with a greenlet at address 1 (two references) and an object of
    another type at address 2 (one reference). *)
Definition sample_host : Host :=
  mkHost (<[1%positive := mkPyObject 2 PyGreenlet_Type]>
            (<[2%positive := mkPyObject 1 7%positive]> ∅))
         ∅ 4096 None [].

(** * Properties *)

(** ** The error indicator *)

Lemma TypeError_new_pending (what : string) (h : Host) (e : PyErr) :
  curexc h = Some e → TypeError.new what h = Done (TypeError.mk what) h.
Proof.
  intros Hp. unfold TypeError.new, bind, PyErr_Occurred. rewrite Hp. reflexivity.
Qed.

Lemma TypeError_new_empty (what : string) (h : Host) :
  curexc h = None →
  TypeError.new what h =
    Done (TypeError.mk what)
      (record (Call_PyErr_SetString PyExc_TypeError what)
         (set_curexc (Some (mkPyErr PyExc_TypeError what)) h)).
Proof.
  intros Hp. unfold TypeError.new, bind, PyErr_Occurred. rewrite Hp. reflexivity.
Qed.

Lemma BorrowedGreenlet_new_reject check (it : BorrowedObject) (h : Host) :
  check (BorrowedReference.to_ptr it) h = false →
  BorrowedGreenlet.new check it h = TypeError.raise "Expected a greenlet" h.
Proof.
  intros Hc. unfold BorrowedGreenlet.new, bind, BorrowedReference.new, ret.
  by rewrite Hc.
Qed.

Lemma BorrowedGreenlet_new_accept check (it : BorrowedObject) (h : Host) :
  check (BorrowedReference.to_ptr it) h = true →
  BorrowedGreenlet.new check it h =
    Done (BorrowedGreenlet.mk (BorrowedReference.mk (BorrowedReference.to_ptr it))) h.
Proof.
  intros Hc. unfold BorrowedGreenlet.new, bind, BorrowedReference.new, ret.
  by rewrite Hc.
Qed.

(** C1: constructing a [BorrowedGreenlet] from a handle the greenlet check
    rejects leaves by the exception [TypeError("Expected a greenlet")]; when
    no failure was pending, the error indicator then holds a [TypeError] with
    the same message.  Objects and allocator blocks are untouched. *)
Theorem BorrowedGreenlet_new_type_error
    (check : ptr → Host → bool) (it : BorrowedObject) (h : Host) :
  check (BorrowedReference.to_ptr it) h = false →
  ∃ h', BorrowedGreenlet.new check it h = Thrown (Exc_TypeError "Expected a greenlet") h'
        ∧ (curexc h = None →
           curexc h' = Some (mkPyErr PyExc_TypeError "Expected a greenlet"))
        ∧ objects h' = objects h ∧ blocks h' = blocks h.
Proof.
  intros Hc. rewrite BorrowedGreenlet_new_reject by done.
  unfold TypeError.raise, bind.
  destruct (curexc h) as [e|] eqn:Hp.
  - rewrite (TypeError_new_pending _ _ e) by done. exists h. by rewrite Hp.
  - rewrite TypeError_new_empty by done. eexists. split; [reflexivity|]. done.
Qed.

Lemma BorrowedGreenlet_new_type_error_witness :
  ∃ h', BorrowedGreenlet.new exact_type_check (BorrowedReference.mk (Some 2%positive))
          sample_host = Thrown (Exc_TypeError "Expected a greenlet") h'
        ∧ curexc h' = Some (mkPyErr PyExc_TypeError "Expected a greenlet").
Proof.
  destruct (BorrowedGreenlet_new_type_error exact_type_check
              (BorrowedReference.mk (Some 2%positive)) sample_host)
    as (h' & Hrun & Hslot & _).
  - vm_compute. reflexivity.
  - exists h'. split; [exact Hrun | apply Hslot; reflexivity].
Defined.

(** C10: when a failure is already pending, building a [TypeError] leaves the
    whole host state, the error indicator included, as it was; the same holds
    where the header throws it.  The indicator changes only if it was
    empty. *)
Theorem TypeError_preserves_pending_failure
    (check : ptr → Host → bool) (what : string) (h : Host) :
  (∀ e, curexc h = Some e → TypeError.new what h = Done (TypeError.mk what) h)
  ∧ (∀ e it, curexc h = Some e → check (BorrowedReference.to_ptr it) h = false →
       BorrowedGreenlet.new check it h = Thrown (Exc_TypeError "Expected a greenlet") h)
  ∧ (∀ x h', TypeError.new what h = Done x h' → curexc h' ≠ curexc h → curexc h = None).
Proof.
  split; [|split].
  - intros e Hp. by apply (TypeError_new_pending _ _ e).
  - intros e it Hp Hc. rewrite BorrowedGreenlet_new_reject by done.
    unfold TypeError.raise, bind. by rewrite (TypeError_new_pending _ _ e).
  - intros x h' Hrun Hne. destruct (curexc h) as [e|] eqn:Hp; [|done].
    rewrite (TypeError_new_pending _ _ e) in Hrun by done.
    injection Hrun as _ <-. congruence.
Qed.

Lemma TypeError_preserves_pending_failure_witness :
  let h := set_curexc (Some (mkPyErr "ValueError" "earlier")) sample_host in
  TypeError.new "Expected a greenlet" h = Done (TypeError.mk "Expected a greenlet") h
  ∧ BorrowedGreenlet.new exact_type_check (BorrowedReference.mk (Some 2%positive)) h
    = Thrown (Exc_TypeError "Expected a greenlet") h.
Proof.
  intros h.
  destruct (TypeError_preserves_pending_failure exact_type_check "Expected a greenlet" h)
    as (H1 & H2 & _).
  split.
  - apply (H1 (mkPyErr "ValueError" "earlier")). reflexivity.
  - apply (H2 (mkPyErr "ValueError" "earlier")); [reflexivity | vm_compute; reflexivity].
Defined.



(** C9: the default constructor of [BorrowedGreenlet] returns normally with
    the host state unchanged, and the handle it builds wraps [nullptr]: its
    pointer conversion is null and its validity test is false. *)
Theorem BorrowedGreenlet_default_empty (h : Host) :
  ∃ g, BorrowedGreenlet.new_default h = Done g h
       ∧ BorrowedGreenlet.to_ptr g = nullptr
       ∧ BorrowedGreenlet.to_bool g = false.
Proof. eexists. split; [reflexivity|]. done. Qed.

(** C6: every member of [BorrowedReference] returns normally and leaves the
    host state as it was: no reference count changes and no [Py_DECREF] is
    issued. *)
Theorem BorrowedReference_frame (o : BorrowedReference.op) (this : BorrowedReference.t)
    (h : Host) :
  ∃ r h', BorrowedReference.run o this h = Done r h'
          ∧ h' = h
          ∧ ∀ a, refcnt h' a = refcnt h a
                 ∧ decrefs h' a = decrefs h a
                 ∧ increfs h' a = increfs h a.
Proof.
  destruct o; eexists; exists h; (split; [reflexivity|]); done.
Qed.

(** ** The allocator *)

Lemma fresh_addr_not_block (h : Host) : blocks h !! fresh_addr h = None.
Proof.
  apply not_elem_of_dom. unfold fresh_addr.
  pose proof (is_fresh (dom (blocks h) ∪ dom (objects h))). set_solver.
Qed.

Lemma host_free_live (d : PyMemAllocatorDomain) (a : addr) (size : Z) (h : Host) :
  blocks h !! a = Some (d, size) →
  host_free d (Some a) h =
    Done () (set_capacity (capacity h + size) (set_blocks (delete a) h)).
Proof.
  intros Hb. unfold host_free. rewrite Hb. by rewrite decide_True.
Qed.

Lemma host_free_other_domain (d d' : PyMemAllocatorDomain) (a : addr) (size : Z) (h : Host) :
  blocks h !! a = Some (d', size) → d ≠ d' →
  host_free d (Some a) h = Undefined (DomainMismatch a).
Proof.
  intros Hb Hne. unfold host_free. rewrite Hb. by rewrite decide_False.
Qed.

(** What a request leaves behind, and that releasing the result in the same
    family undoes it. *)
Lemma host_malloc_free (d : PyMemAllocatorDomain) (size : Z) (h : Host) (e e' : event) :
  ∃ p h1,
    host_malloc d size h = (p, h1)
    ∧ events h1 = events h
    ∧ match p with
      | Some a => blocks h !! a = None ∧ blocks h1 = <[a := (d, size)]> (blocks h)
      | None => blocks h1 = blocks h
      end
    ∧ ∃ h2, host_free d p (record e' (record e h1)) = Done () h2
            ∧ blocks h2 = blocks h
            ∧ capacity h2 = capacity h
            ∧ events h2 = (events h ++ [e]) ++ [e'].
Proof.
  unfold host_malloc.
  destruct ((size <=? PY_SSIZE_T_MAX) && (size <=? capacity h)).
  - pose proof (fresh_addr_not_block h) as Hfresh.
    eexists _, _. split; [reflexivity|]. split; [done|]. split; [done|].
    eexists. erewrite host_free_live by (simpl; apply lookup_insert_eq).
    split; [reflexivity|]. simpl. split; [by apply delete_insert_id|].
    split; [lia | done].
  - exists None, h. split; [done|]. split; [done|]. split; [done|].
    eexists. split; [reflexivity|]. done.
Qed.

Section Allocator.
Context {T : CxxType}.

Import PythonAllocator.

(** C4: [allocate] serves a request for one object by [PyObject_Malloc] and
    any other request by [PyMem_Malloc], and a block it obtains is registered
    with that family; [deallocate] with the same count calls the release
    function of the same family ([PyObject_Free] for one, [PyMem_Free]
    otherwise), so the host accepts it and the block is gone, both right
    after the allocation and in any later state where the block is still
    live. *)
Theorem PythonAllocator_pairing (number_objects : Z) (h : Host) :
  ∃ p h1,
    allocate number_objects h = Done p h1
    ∧ events h1 =
        events h ++ [if number_objects =? 1 then Call_PyObject_Malloc sizeof p
                     else Call_PyMem_Malloc (size_t_mul sizeof number_objects) p]
    ∧ match p with
      | Some a =>
          blocks h !! a = None
          ∧ blocks h1 =
              <[a := if number_objects =? 1 then (PYMEM_DOMAIN_OBJ, sizeof)
                     else (PYMEM_DOMAIN_MEM, size_t_mul sizeof number_objects)]> (blocks h)
      | None => blocks h1 = blocks h
      end
    ∧ (∃ h2, deallocate p number_objects h1 = Done () h2
             ∧ blocks h2 = blocks h
             ∧ capacity h2 = capacity h
             ∧ events h2 =
                 events h1 ++ [if number_objects =? 1 then Call_PyObject_Free p
                               else Call_PyMem_Free p])
    ∧ (∀ a h' size,
         p = Some a →
         blocks h' !! a =
           Some (if number_objects =? 1 then PYMEM_DOMAIN_OBJ else PYMEM_DOMAIN_MEM, size) →
         ∃ h2, deallocate p number_objects h' = Done () h2
               ∧ blocks h2 = delete a (blocks h')
               ∧ events h2 =
                   events h' ++ [if number_objects =? 1 then Call_PyObject_Free p
                                 else Call_PyMem_Free p]).
Proof.
  unfold allocate, deallocate.
  destruct (number_objects =? 1) eqn:Hn.
  - unfold PyObject_Malloc, PyObject_Free.
    set (size := sizeof).
    destruct (host_malloc PYMEM_DOMAIN_OBJ size h) as [p h1] eqn:Hm.
    destruct (host_malloc_free PYMEM_DOMAIN_OBJ size h
                (Call_PyObject_Malloc size p) (Call_PyObject_Free p))
      as (p' & h1' & Hm' & Hev & Hreg & h2 & Hfree & Hb2 & Hc2 & Hev2).
    rewrite Hm in Hm'. injection Hm' as <- <-.
    exists p, (record (Call_PyObject_Malloc size p) h1).
    split; [done|]. split; [simpl; by rewrite Hev|]. split; [exact Hreg|]. split.
    + exists h2. split; [exact Hfree|]. split; [done|]. split; [done|].
      simpl. by rewrite Hev2, Hev.
    + intros a h' sz -> Hb. eexists.
      erewrite host_free_live by (simpl; exact Hb). split; [reflexivity|]. done.
  - unfold PyMem_Malloc, PyMem_Free.
    set (size := size_t_mul sizeof number_objects).
    destruct (host_malloc PYMEM_DOMAIN_MEM size h) as [p h1] eqn:Hm.
    destruct (host_malloc_free PYMEM_DOMAIN_MEM size h
                (Call_PyMem_Malloc size p) (Call_PyMem_Free p))
      as (p' & h1' & Hm' & Hev & Hreg & h2 & Hfree & Hb2 & Hc2 & Hev2).
    rewrite Hm in Hm'. injection Hm' as <- <-.
    exists p, (record (Call_PyMem_Malloc size p) h1).
    split; [done|]. split; [simpl; by rewrite Hev|]. split; [exact Hreg|]. split.
    + exists h2. split; [exact Hfree|]. split; [done|]. split; [done|].
      simpl. by rewrite Hev2, Hev.
    + intros a h' sz -> Hb. eexists.
      erewrite host_free_live by (simpl; exact Hb). split; [reflexivity|]. done.
Qed.

(** A count that differs from the one used at allocation time in being one
    or not picks the other family, which the host does not accept. *)
Lemma PythonAllocator_mismatch (h : Host) (a : addr) (h1 : Host) :
  allocate 1 h = Done (Some a) h1 →
  deallocate (Some a) 2 h1 = Undefined (DomainMismatch a).
Proof.
  unfold allocate. simpl. unfold PyObject_Malloc, host_malloc.
  destruct ((sizeof <=? PY_SSIZE_T_MAX) && (sizeof <=? capacity h)); [|done].
  intros [= <- <-].
  change (deallocate (Some (fresh_addr h)) 2) with (PyMem_Free (Some (fresh_addr h))).
  unfold PyMem_Free.
  eapply host_free_other_domain; [simpl; apply lookup_insert_eq | done].
Qed.

(** C7: [dispose] runs the destructor first and releases the storage second:
    when [destroy] returns, [dispose] is the single-object release
    [deallocate(other, 1)], that is [PyObject_Free], run from the state the
    destructor left, and the release is the last call made; when [destroy]
    does not return, nothing is released.  The destructor call is recorded
    before the destructor's own effects. *)
Theorem PythonAllocator_dispose_order (other : ptr) (h : Host) :
  dispose other h = bind (destroy other) (λ _, deallocate other 1) h
  ∧ destroy other h = destructor other (record (Call_destructor other) h)
  ∧ (∀ h1, destroy other h = Done () h1 →
       dispose other h = deallocate other 1 h1
       ∧ deallocate other 1 h1 = PyObject_Free other h1
       ∧ ∀ h2, dispose other h = Done () h2 →
           events h2 = events h1 ++ [Call_PyObject_Free other])
  ∧ (∀ e h1, destroy other h = Thrown e h1 → dispose other h = Thrown e h1)
  ∧ (∀ f, destroy other h = Undefined f → dispose other h = Undefined f).
Proof.
  split; [reflexivity|]. split; [reflexivity|].
  unfold dispose, bind. split; [|split].
  - intros h1 Hd. rewrite Hd. split; [reflexivity|]. split; [reflexivity|].
    intros h2. unfold deallocate, PyObject_Free. simpl.
    destruct other as [a|]; simpl.
    + destruct (blocks h1 !! a) as [[d sz]|]; [|done].
      destruct (decide (PYMEM_DOMAIN_OBJ = d)); [|done].
      by intros [= <-].
    + by intros [= <-].
  - intros e h1 Hd. by rewrite Hd.
  - intros f Hd. by rewrite Hd.
Qed.

End Allocator.

Lemma PythonAllocator_pairing_witness :
  ∃ a h1 h2,
    PythonAllocator.allocate (T := trivial_T) 3 empty_host = Done (Some a) h1
    ∧ blocks h1 !! a = Some (PYMEM_DOMAIN_MEM, 144)
    ∧ PythonAllocator.deallocate (Some a) 3 h1 = Done () h2
    ∧ blocks h2 = delete a (blocks h1).
Proof.
  destruct (PythonAllocator_pairing (T := trivial_T) 3 empty_host)
    as (p & h1 & Hrun & _ & Hreg & _ & Hlater).
  assert (p = Some (fresh_addr empty_host)) as ->.
  { vm_compute in Hrun. by injection Hrun as <- _. }
  destruct Hreg as [_ Hb].
  assert (blocks h1 !! fresh_addr empty_host = Some (PYMEM_DOMAIN_MEM, 144)) as Hlive.
  { rewrite Hb. apply lookup_insert_eq. }
  destruct (Hlater _ h1 144 eq_refl Hlive) as (h2 & Hfree & Hgone & _).
  by exists (fresh_addr empty_host), h1, h2.
Defined.

Lemma PythonAllocator_dispose_order_witness :
  let t := Some 5%positive in
  let h := set_blocks <[5%positive := (PYMEM_DOMAIN_OBJ, 48)]> empty_host in
  ∃ h2, PythonAllocator.dispose (T := trivial_T) t h = Done () h2
        ∧ blocks h2 !! 5%positive = None
        ∧ events h2 = [Call_destructor t; Call_PyObject_Free t].
Proof.
  intros t h.
  destruct (PythonAllocator_dispose_order (T := trivial_T) t h) as (_ & _ & Hok & _).
  destruct (Hok (record (Call_destructor t) h)) as (Heq & _); [reflexivity|].
  eexists. split; [rewrite Heq; reflexivity|]. split; reflexivity.
Defined.

(** ** Reference counts *)

Section Counting.
Context {A : Type} (P : A → Prop) `{!∀ x, Decision (P x)}.

Lemma count_cons (x : A) (l : list A) :
  Z.of_nat (length (filter P (x :: l))) =
    (if decide (P x) then 1 else 0) + Z.of_nat (length (filter P l)).
Proof.
  rewrite filter_cons. destruct (decide (P x)); simpl; lia.
Qed.

Lemma count_app (l1 l2 : list A) :
  Z.of_nat (length (filter P (l1 ++ l2))) =
    Z.of_nat (length (filter P l1)) + Z.of_nat (length (filter P l2)).
Proof. rewrite filter_app, length_app. lia. Qed.

Lemma count_snoc (l : list A) (x : A) :
  Z.of_nat (length (filter P (l ++ [x]))) =
    Z.of_nat (length (filter P l)) + (if decide (P x) then 1 else 0).
Proof. rewrite count_app, count_cons. simpl. lia. Qed.

Lemma count_delete (l : list A) (i : nat) (x : A) :
  l !! i = Some x →
  Z.of_nat (length (filter P (delete i l))) =
    Z.of_nat (length (filter P l)) - (if decide (P x) then 1 else 0).
Proof.
  intros Hi. rewrite delete_take_drop.
  rewrite <- (take_drop_middle l i x Hi) at 3.
  rewrite !count_app, count_cons. lia.
Qed.

Lemma count_member (l : list A) (i : nat) (x : A) :
  l !! i = Some x → P x → 0 < Z.of_nat (length (filter P l)).
Proof.
  intros Hi HP. rewrite <- (take_drop_middle l i x Hi).
  rewrite count_app, count_cons. rewrite decide_True by done. lia.
Qed.

End Counting.

Lemma refcnt_positive_live (h : Host) (a : addr) :
  0 < refcnt h a → ∃ o, objects h !! a = Some o ∧ ob_refcnt o = refcnt h a.
Proof.
  unfold refcnt. destruct (objects h !! a) as [o|]; [|lia]. intros _. by exists o.
Qed.

Lemma Py_INCREF_spec (a : addr) (h : Host) :
  0 < refcnt h a →
  ∃ h', Py_INCREF a h = Done () h'
        ∧ (∀ b, refcnt h' b = refcnt h b + (if decide (Some a = Some b) then 1 else 0))
        ∧ events h' = events h ++ [Call_Py_INCREF a]
        ∧ blocks h' = blocks h ∧ curexc h' = curexc h.
Proof.
  intros Hpos. destruct (refcnt_positive_live h a Hpos) as (o & Ho & Hrc).
  unfold Py_INCREF. rewrite Ho. eexists. split; [reflexivity|].
  split; [|done]. intros b. unfold refcnt at 1. simpl.
  destruct (decide (Some a = Some b)) as [[= <-]|Hne].
  - rewrite lookup_insert_eq. simpl. lia.
  - rewrite lookup_insert_ne by congruence. unfold refcnt. lia.
Qed.

Lemma Py_DECREF_spec (a : addr) (h : Host) :
  0 < refcnt h a →
  ∃ h', Py_DECREF a h = Done () h'
        ∧ (∀ b, refcnt h' b = refcnt h b - (if decide (Some a = Some b) then 1 else 0))
        ∧ events h' = events h ++ [Call_Py_DECREF a]
        ∧ blocks h' = blocks h ∧ curexc h' = curexc h
        ∧ (refcnt h a = 1 → objects h' !! a = None).
Proof.
  intros Hpos. destruct (refcnt_positive_live h a Hpos) as (o & Ho & Hrc).
  unfold Py_DECREF. rewrite Ho. eexists. split; [reflexivity|].
  split; [|split; [done|split; [done|split; [done|]]]].
  - intros b. unfold refcnt at 1. simpl.
    destruct (decide (Some a = Some b)) as [[= <-]|Hne].
    + destruct (ob_refcnt o - 1 =? 0) eqn:Hz.
      * rewrite lookup_delete_eq. lia.
      * rewrite lookup_insert_eq. simpl. lia.
    + destruct (ob_refcnt o - 1 =? 0).
      * rewrite lookup_delete_ne by congruence. unfold refcnt. lia.
      * rewrite lookup_insert_ne by congruence. unfold refcnt. lia.
  - intros H1. simpl. rewrite Hrc, H1. simpl. apply lookup_delete_eq.
Qed.

Lemma occurrences_snoc (e e' : event) (evs : list event) :
  occurrences e (evs ++ [e']) = occurrences e evs + (if decide (e' = e) then 1 else 0).
Proof. unfold occurrences. exact (count_snoc (λ x, x = e) evs e'). Qed.

Lemma increfs_after_incref (h h' : Host) (a b : addr) :
  events h' = events h ++ [Call_Py_INCREF a] →
  increfs h' b = increfs h b + (if decide (Some a = Some b) then 1 else 0)
  ∧ decrefs h' b = decrefs h b.
Proof.
  intros He. unfold increfs, decrefs. rewrite He, !occurrences_snoc.
  rewrite (decide_False (P := Call_Py_INCREF a = Call_Py_DECREF b)) by done.
  split; [|lia].
  destruct (decide (Some a = Some b)) as [[= <-]|Hne].
  - by rewrite decide_True.
  - rewrite decide_False; [done | congruence].
Qed.

Lemma decrefs_after_decref (h h' : Host) (a b : addr) :
  events h' = events h ++ [Call_Py_DECREF a] →
  decrefs h' b = decrefs h b + (if decide (Some a = Some b) then 1 else 0)
  ∧ increfs h' b = increfs h b.
Proof.
  intros He. unfold increfs, decrefs. rewrite He, !occurrences_snoc.
  rewrite (decide_False (P := Call_Py_DECREF a = Call_Py_INCREF b)) by done.
  split; [|lia].
  destruct (decide (Some a = Some b)) as [[= <-]|Hne].
  - by rewrite decide_True.
  - rewrite decide_False; [done | congruence].
Qed.

(** ** [APIResult] *)

Lemma held_snoc (a : addr) (live : list APIResult.t) (y : APIResult.t) :
  held a (live ++ [y]) =
    held a live + (if decide (APIResult.p y = Some a) then 1 else 0).
Proof. unfold held. exact (count_snoc (λ x, APIResult.p x = Some a) live y). Qed.

Lemma held_delete (a : addr) (live : list APIResult.t) (i : nat) (x : APIResult.t) :
  live !! i = Some x →
  held a (delete i live) =
    held a live - (if decide (APIResult.p x = Some a) then 1 else 0).
Proof. unfold held. exact (count_delete (λ x, APIResult.p x = Some a) live i x). Qed.

Lemma held_member (a : addr) (live : list APIResult.t) (i : nat) (x : APIResult.t) :
  live !! i = Some x → APIResult.p x = Some a → 0 < held a live.
Proof. unfold held. exact (count_member (λ x, APIResult.p x = Some a) live i x). Qed.

Lemma APIResult_copy_empty (x : APIResult.t) (h : Host) :
  APIResult.p x = None → APIResult.copy x h = Done (APIResult.mk None) h.
Proof. intros Hp. unfold APIResult.copy, bind. simpl. by rewrite Hp. Qed.

Lemma APIResult_copy_held (x : APIResult.t) (a : addr) (h : Host) :
  APIResult.p x = Some a → 0 < refcnt h a →
  ∃ h', APIResult.copy x h = Done (APIResult.mk (Some a)) h'
        ∧ (∀ b, refcnt h' b = refcnt h b + (if decide (Some a = Some b) then 1 else 0))
        ∧ events h' = events h ++ [Call_Py_INCREF a].
Proof.
  intros Hp Hpos. destruct (Py_INCREF_spec a h Hpos) as (h' & Hrun & Hrc & Hev & _).
  exists h'. unfold APIResult.copy, bind. simpl. rewrite Hp. simpl. by rewrite Hrun.
Qed.

Lemma APIResult_delete_empty (x : APIResult.t) (h : Host) :
  APIResult.p x = None → APIResult.delete x h = Done () h.
Proof. intros Hp. unfold APIResult.delete. by rewrite Hp. Qed.

Lemma APIResult_delete_held (x : APIResult.t) (a : addr) (h : Host) :
  APIResult.p x = Some a → 0 < refcnt h a →
  ∃ h', APIResult.delete x h = Done () h'
        ∧ (∀ b, refcnt h' b = refcnt h b - (if decide (Some a = Some b) then 1 else 0))
        ∧ events h' = events h ++ [Call_Py_DECREF a].
Proof.
  intros Hp Hpos. destruct (Py_DECREF_spec a h Hpos) as (h' & Hrun & Hrc & Hev & _).
  exists h'. unfold APIResult.delete. rewrite Hp. simpl. by rewrite Hrun.
Qed.

(** Any run of copies and destructions over values that own their
    references returns, and keeps the books: a count moves exactly as the
    number of values holding it, and every move is one [Py_INCREF] or one
    [Py_DECREF]. *)
Lemma run_cmds_accounting (cs : list api_cmd) :
  ∀ (live : list APIResult.t) (h : Host),
    owned live h →
    ∃ live' h',
      run_cmds cs live h = Done live' h'
      ∧ owned live' h'
      ∧ (∀ a, refcnt h' a - held a live' = refcnt h a - held a live)
      ∧ (∀ a, held a live' + decrefs h' a - increfs h' a
              = held a live + decrefs h a - increfs h a).
Proof.
  induction cs as [|c cs IH]; intros live h Hown.
  { exists live, h. done. }
  destruct c as [i|i]; simpl; destruct (live !! i) as [x|] eqn:Hi; try by apply IH.
  - (* copy *)
    destruct (APIResult.p x) as [a|] eqn:Hp.
    + pose proof (held_member a live i x Hi Hp) as Hheld.
      destruct (APIResult_copy_held x a h Hp) as (h1 & Hrun & Hrc & Hev);
        [specialize (Hown a Hheld); lia|].
      unfold bind. rewrite Hrun.
      destruct (IH (live ++ [APIResult.mk (Some a)]) h1) as (live' & h' & Hrest & Hown' & Hbal & Hevs).
      { intros b. rewrite held_snoc, Hrc. simpl. specialize (Hown b).
        destruct (decide (Some a = Some b)) as [[= <-]|]; lia. }
      exists live', h'. split; [done|]. split; [done|]. split.
      * intros b. rewrite Hbal, held_snoc, Hrc. simpl. lia.
      * intros b. rewrite Hevs, held_snoc. simpl.
        destruct (increfs_after_incref h h1 a b Hev) as [-> ->]. lia.
    + unfold bind. rewrite APIResult_copy_empty by done.
      destruct (IH (live ++ [APIResult.mk None]) h) as (live' & h' & Hrest & Hown' & Hbal & Hevs).
      { intros b. rewrite held_snoc. simpl. rewrite ?decide_False by done.
        specialize (Hown b). lia. }
      exists live', h'. split; [done|]. split; [done|]. split.
      * intros b. rewrite Hbal, held_snoc. simpl. rewrite ?decide_False by done. lia.
      * intros b. rewrite Hevs, held_snoc. simpl. rewrite ?decide_False by done. lia.
  - (* destroy *)
    destruct (APIResult.p x) as [a|] eqn:Hp.
    + pose proof (held_member a live i x Hi Hp) as Hheld.
      destruct (APIResult_delete_held x a h Hp) as (h1 & Hrun & Hrc & Hev);
        [specialize (Hown a Hheld); lia|].
      unfold bind. rewrite Hrun.
      destruct (IH (delete i live) h1) as (live' & h' & Hrest & Hown' & Hbal & Hevs).
      { intros b. rewrite (held_delete b live i x Hi), Hrc, Hp. specialize (Hown b).
        destruct (decide (Some a = Some b)) as [[= <-]|]; lia. }
      exists live', h'. split; [done|]. split; [done|]. split.
      * intros b. rewrite Hbal, (held_delete b live i x Hi), Hrc, Hp. lia.
      * intros b. rewrite Hevs, (held_delete b live i x Hi), Hp.
        destruct (decrefs_after_decref h h1 a b Hev) as [-> ->]. lia.
    + unfold bind. rewrite APIResult_delete_empty by done.
      destruct (IH (delete i live) h) as (live' & h' & Hrest & Hown' & Hbal & Hevs).
      { intros b. rewrite (held_delete b live i x Hi), Hp. rewrite ?decide_False by done.
        specialize (Hown b). lia. }
      exists live', h'. split; [done|]. split; [done|]. split.
      * intros b. rewrite Hbal, (held_delete b live i x Hi), Hp.
        rewrite ?decide_False by done. lia.
      * intros b. rewrite Hevs, (held_delete b live i x Hi), Hp.
        rewrite ?decide_False by done. lia.
Qed.

(** C2: the constructor of [APIResult] stores the handle and touches no
    count; the copy constructor raises the count of the held object by one
    (one [Py_INCREF]) and does nothing for an empty value; the destructor
    lowers it by one (one [Py_DECREF]) and does nothing for an empty value.
    Hence any run of copies and destructions over values that own their
    references returns without misuse of the host, a count always differs
    from the number of values holding it by the same amount, and once every
    value is destroyed each object was released once per reference held:
    once per value there was at the start and once per copy made. *)
Theorem APIResult_reference_accounting :
  (∀ it h, APIResult.new it h = Done (APIResult.mk it) h)
  ∧ (∀ x h, APIResult.p x = None →
       APIResult.to_bool x = false
       ∧ APIResult.copy x h = Done (APIResult.mk None) h
       ∧ APIResult.delete x h = Done () h)
  ∧ (∀ x a h, APIResult.p x = Some a → 0 < refcnt h a →
       (∃ h', APIResult.copy x h = Done (APIResult.mk (Some a)) h'
              ∧ refcnt h' a = refcnt h a + 1
              ∧ (∀ b, b ≠ a → refcnt h' b = refcnt h b)
              ∧ events h' = events h ++ [Call_Py_INCREF a])
       ∧ (∃ h', APIResult.delete x h = Done () h'
                ∧ refcnt h' a = refcnt h a - 1
                ∧ (∀ b, b ≠ a → refcnt h' b = refcnt h b)
                ∧ events h' = events h ++ [Call_Py_DECREF a]))
  ∧ (∀ cs live h, owned live h →
       ∃ live' h',
         run_cmds cs live h = Done live' h'
         ∧ owned live' h'
         ∧ (∀ a, refcnt h' a - held a live' = refcnt h a - held a live)
         ∧ (live' = [] →
            ∀ a, decrefs h' a - decrefs h a = held a live + (increfs h' a - increfs h a)
                 ∧ refcnt h' a = refcnt h a - held a live)).
Proof.
  split; [reflexivity|]. split; [|split].
  - intros x h Hp. split; [|split].
    + unfold APIResult.to_bool. by rewrite Hp.
    + by apply APIResult_copy_empty.
    + by apply APIResult_delete_empty.
  - intros x a h Hp Hpos. split.
    + destruct (APIResult_copy_held x a h Hp Hpos) as (h' & Hrun & Hrc & Hev).
      exists h'. split; [done|]. split; [|split; [|done]].
      * rewrite Hrc. by rewrite decide_True.
      * intros b Hne. rewrite Hrc. rewrite decide_False by congruence. lia.
    + destruct (APIResult_delete_held x a h Hp Hpos) as (h' & Hrun & Hrc & Hev).
      exists h'. split; [done|]. split; [|split; [|done]].
      * rewrite Hrc. by rewrite decide_True.
      * intros b Hne. rewrite Hrc. rewrite decide_False by congruence. lia.
  - intros cs live h Hown.
    destruct (run_cmds_accounting cs live h Hown) as (live' & h' & Hrun & Hown' & Hbal & Hev).
    exists live', h'. split; [done|]. split; [done|]. split; [done|].
    intros -> a. specialize (Hbal a). specialize (Hev a).
    change (held a []) with 0 in *. lia.
Qed.

Lemma APIResult_reference_accounting_witness :
  let x := APIResult.mk (Some 2%positive) in
  ∃ h', run_cmds [ACopy 0; ACopy 1; ADestroy 0; ADestroy 0; ADestroy 0] [x] sample_host
          = Done [] h'
        ∧ refcnt h' 2%positive = 0
        ∧ decrefs h' 2%positive = 3 ∧ increfs h' 2%positive = 2.
Proof.
  intros x.
  destruct APIResult_reference_accounting as (_ & _ & _ & Hseq).
  destruct (Hseq [ACopy 0; ACopy 1; ADestroy 0; ADestroy 0; ADestroy 0]%nat [x] sample_host)
    as (live' & h' & Hrun & _ & _ & _).
  { intros a. unfold held. rewrite filter_cons, filter_nil. simpl.
    case_decide as Ha; simpl; [|lia].
    injection Ha as <-. intros _. vm_compute. discriminate. }
  vm_compute in Hrun. injection Hrun as <- <-.
  eexists. split; [vm_compute; reflexivity|]. vm_compute. done.
Defined.

(** ** [OutParam] *)

Lemma disown_n_empty (k : nat) :
  disown_n k (OutParam.mk None) = (replicate k None, OutParam.mk None).
Proof.
  induction k as [|k IH]; [reflexivity|].
  simpl. unfold nullptr. rewrite IH. reflexivity.
Qed.

Lemma disown_n_held (k : nat) (a : addr) :
  disown_n (S k) (OutParam.mk (Some a)) = (Some a :: replicate k None, OutParam.mk None).
Proof. simpl. unfold nullptr. rewrite disown_n_empty. reflexivity. Qed.

Lemma handed_out_none (a : addr) (k : nat) : handed_out a (replicate k None) = 0.
Proof.
  unfold handed_out. induction k as [|k IH]; [reflexivity|].
  simpl. rewrite filter_cons_False by done. exact IH.
Qed.

Lemma OutParam_delete_held (x : OutParam.t) (a : addr) (h : Host) :
  OutParam.p x = Some a → 0 < refcnt h a →
  ∃ h', OutParam.delete x h = Done () h'
        ∧ refcnt h' a = refcnt h a - 1
        ∧ (∀ b, b ≠ a → refcnt h' b = refcnt h b)
        ∧ events h' = events h ++ [Call_Py_DECREF a].
Proof.
  intros Hp Hpos. destruct (Py_DECREF_spec a h Hpos) as (h' & Hrun & Hrc & Hev & _).
  exists h'. unfold OutParam.delete. rewrite Hp. simpl.
  split; [done|]. split; [|split; [|done]].
  - rewrite Hrc. by rewrite decide_True.
  - intros b Hne. rewrite Hrc. rewrite decide_False by congruence. lia.
Qed.

Lemma release_all_none (k : nat) (h : Host) :
  release_all (replicate k None) h = Done () h.
Proof. induction k as [|k IH]; [reflexivity|]. simpl. unfold bind. simpl. exact IH. Qed.

(** C3: a new [OutParam] is empty and [operator bool() const] is false for
    it.  Used as a condition, though, a non-const [OutParam] converts through
    [operator PyObject**()], whose result is never null: the test is true
    whatever the wrapper holds, right after construction as well; only a
    const [OutParam] is tested by [operator bool() const]. *)
Theorem OutParam_condition_always_true (self : addr) (h : Host) :
  ∃ x, OutParam.new h = Done x h
       ∧ OutParam.p x = nullptr
       ∧ OutParam.to_bool x = false
       ∧ OutParam.test OutParam.Const self x = false
       ∧ OutParam.test OutParam.NonConst self x = true
       ∧ ∀ y, OutParam.test OutParam.NonConst self y = true.
Proof. eexists. split; [reflexivity|]. done. Qed.

(** X16: the reference an [OutParam] receives is passed on exactly once.
    [disown] returns the stored pointer and clears the member, so a further
    [disown] returns null; the destructor issues one [Py_DECREF] for what
    the member still holds and none when it is null.  Hence, however many
    times [disown] is called before the destructor runs, the stored
    reference is either handed to the caller, once, or released by the
    destructor, once, and never both; with a receiver that releases what it
    took, the object sees exactly one [Py_DECREF] in every case. *)
Theorem OutParam_disown_release_accounting :
  (∀ h, OutParam.new h = Done (OutParam.mk nullptr) h)
  ∧ (∀ x a,
       let y := OutParam.store x (Some a) in
       OutParam.disown y = (Some a, OutParam.mk nullptr)
       ∧ OutParam.disown (OutParam.disown y).2 = (nullptr, OutParam.mk nullptr))
  ∧ (∀ x h, OutParam.p x = None → OutParam.delete x h = Done () h)
  ∧ (∀ x a h, OutParam.p x = Some a → 0 < refcnt h a →
       ∃ h', OutParam.delete x h = Done () h'
             ∧ refcnt h' a = refcnt h a - 1
             ∧ events h' = events h ++ [Call_Py_DECREF a])
  ∧ (∀ k x a h rs y, 0 < refcnt h a →
       disown_n k (OutParam.store x (Some a)) = (rs, y) →
       ∃ h', OutParam.delete y h = Done () h'
             ∧ handed_out a rs + (decrefs h' a - decrefs h a) = 1
             ∧ refcnt h' a = refcnt h a - (decrefs h' a - decrefs h a))
  ∧ (∀ k x a h rs y, 0 < refcnt h a →
       disown_n k (OutParam.store x (Some a)) = (rs, y) →
       ∃ h', bind (release_all rs) (λ _, OutParam.delete y) h = Done () h'
             ∧ decrefs h' a - decrefs h a = 1
             ∧ refcnt h' a = refcnt h a - 1).
Proof.
  split; [done|]. split; [done|]. split; [|split; [|split]].
  - intros x h Hp. unfold OutParam.delete. by rewrite Hp.
  - intros x a h Hp Hpos.
    destruct (OutParam_delete_held x a h Hp Hpos) as (h' & Hrun & Hrc & _ & Hev).
    by exists h'.
  - intros k x a h rs y Hpos Hk. unfold OutParam.store in Hk.
    destruct k as [|k].
    + injection Hk as <- <-.
      destruct (OutParam_delete_held (OutParam.mk (Some a)) a h eq_refl Hpos)
        as (h' & Hrun & Hrc & _ & Hev).
      exists h'. split; [done|].
      destruct (decrefs_after_decref h h' a a Hev) as [-> _].
      rewrite decide_True by done. change (handed_out a []) with 0. lia.
    + rewrite disown_n_held in Hk. injection Hk as <- <-.
      exists h. split; [reflexivity|].
      unfold handed_out. rewrite filter_cons_True by done. simpl length.
      pose proof (handed_out_none a k) as Hnone. unfold handed_out in Hnone. lia.
  - intros k x a h rs y Hpos Hk. unfold OutParam.store in Hk.
    destruct (OutParam_delete_held (OutParam.mk (Some a)) a h eq_refl Hpos)
      as (h' & Hrun & Hrc & _ & Hev).
    destruct (decrefs_after_decref h h' a a Hev) as [Hd _].
    rewrite decide_True in Hd by done.
    exists h'. split; [|split; [lia|done]].
    destruct k as [|k].
    + injection Hk as <- <-. exact Hrun.
    + rewrite disown_n_held in Hk. injection Hk as <- <-.
      unfold OutParam.delete in Hrun. simpl in Hrun.
      unfold bind. simpl. unfold bind. rewrite Hrun.
      by rewrite release_all_none.
Qed.

Lemma OutParam_disown_release_accounting_witness :
  (∃ h', OutParam.delete (OutParam.store (OutParam.mk nullptr) (Some 1%positive)) sample_host
           = Done () h'
         ∧ refcnt h' 1%positive = 1)
  ∧ (let '(rs, y) := disown_n 2 (OutParam.store (OutParam.mk nullptr) (Some 1%positive)) in
     rs = [Some 1%positive; None]
     ∧ OutParam.delete y sample_host = Done () sample_host).
Proof.
  destruct OutParam_disown_release_accounting as (_ & _ & Hempty & Hheld & _).
  split.
  - destruct (Hheld (OutParam.mk (Some 1%positive)) 1%positive sample_host)
      as (h' & Hrun & Hrc & _); [reflexivity | vm_compute; reflexivity |].
    exists h'. split; [exact Hrun|]. rewrite Hrc. vm_compute. reflexivity.
  - simpl. split; [reflexivity|]. apply Hempty. reflexivity.
Defined.

(** * Further properties of the header *)

(** ** [PythonAllocator]: sizes, exhaustion, mismatches *)

Section AllocatorMore.
Context {T : CxxType}.

Import PythonAllocator.

(** What a call of [allocate] that returned did to the host. *)
Lemma allocate_inv (number_objects : Z) (h : Host) (p : ptr) (h1 : Host) :
  allocate number_objects h = Done p h1 →
  ∃ d size e,
    d = (if number_objects =? 1 then PYMEM_DOMAIN_OBJ else PYMEM_DOMAIN_MEM)
    ∧ size = (if number_objects =? 1 then sizeof else size_t_mul sizeof number_objects)
    ∧ e = (if number_objects =? 1 then Call_PyObject_Malloc size p
           else Call_PyMem_Malloc size p)
    ∧ match p with
      | Some a =>
          a = fresh_addr h
          ∧ (size ≤ PY_SSIZE_T_MAX ∧ size ≤ capacity h)
          ∧ h1 = record e (set_capacity (capacity h - size)
                             (set_blocks <[a := (d, size)]> h))
      | None => (PY_SSIZE_T_MAX < size ∨ capacity h < size) ∧ h1 = record e h
      end.
Proof.
  unfold allocate. destruct (number_objects =? 1).
  - unfold PyObject_Malloc, host_malloc.
    destruct (sizeof <=? PY_SSIZE_T_MAX) eqn:Hm, (sizeof <=? capacity h) eqn:Hc;
      simpl; intros [= <- <-];
      eexists _, _, _; (split; [reflexivity|]); (split; [reflexivity|]);
      (split; [reflexivity|]); simpl; (split; [first [done | lia]|]);
      first [done | split; [lia | done]].
  - unfold PyMem_Malloc, host_malloc.
    destruct (size_t_mul sizeof number_objects <=? PY_SSIZE_T_MAX) eqn:Hm,
             (size_t_mul sizeof number_objects <=? capacity h) eqn:Hc;
      simpl; intros [= <- <-];
      eexists _, _, _; (split; [reflexivity|]); (split; [reflexivity|]);
      (split; [reflexivity|]); simpl; (split; [first [done | lia]|]);
      first [done | split; [lia | done]].
Qed.

Lemma allocate_total (number_objects : Z) (h : Host) :
  ∃ p h1, allocate number_objects h = Done p h1.
Proof.
  unfold allocate. destruct (number_objects =? 1).
  - unfold PyObject_Malloc. destruct (host_malloc _ _ _). by eexists _, _.
  - unfold PyMem_Malloc. destruct (host_malloc _ _ _). by eexists _, _.
Qed.

(** X1: a bulk request whose byte count fits [size_t] asks [PyMem_Malloc]
    for exactly [sizeof(T) * number_objects] bytes, and a block it gets has
    that size. *)
Theorem allocate_bulk_exact_size (number_objects : Z) (h : Host) :
  number_objects ≠ 1 →
  0 ≤ sizeof * number_objects < 2 ^ SIZE_WIDTH →
  ∃ p h1,
    allocate number_objects h = Done p h1
    ∧ events h1 = events h ++ [Call_PyMem_Malloc (sizeof * number_objects) p]
    ∧ ∀ a, p = Some a →
        blocks h1 !! a = Some (PYMEM_DOMAIN_MEM, sizeof * number_objects).
Proof.
  intros Hn Hfit.
  destruct (allocate_total number_objects h) as (p & h1 & Hrun).
  exists p, h1. split; [done|].
  destruct (allocate_inv _ _ _ _ Hrun) as (d & size & e & -> & -> & -> & Hp).
  assert ((number_objects =? 1) = false) as Hb by lia. rewrite Hb in Hp.
  assert (size_t_mul sizeof number_objects = sizeof * number_objects) as Hsz.
  { unfold size_t_mul, size_t_wrap. by apply Z.mod_small. }
  rewrite Hsz in Hp. destruct p as [a|].
  - destruct Hp as (_ & _ & ->). split; [done|].
    intros a' [= <-]. simpl. apply lookup_insert_eq.
  - destruct Hp as (_ & ->). split; [done|]. done.
Qed.

(** X2: the multiplication [sizeof(T) * number_objects] is not checked for
    overflow: when the product does not fit [size_t], the request made to
    [PyMem_Malloc] is the product reduced modulo [2^64], and so a block that
    is too small. *)
Theorem allocate_bulk_size_wraps (number_objects : Z) (h : Host) :
  number_objects ≠ 1 →
  2 ^ SIZE_WIDTH ≤ sizeof * number_objects →
  ∃ p h1 size,
    allocate number_objects h = Done p h1
    ∧ events h1 = events h ++ [Call_PyMem_Malloc size p]
    ∧ size = (sizeof * number_objects) mod 2 ^ SIZE_WIDTH
    ∧ size < sizeof * number_objects
    ∧ ∀ a, p = Some a → blocks h1 !! a = Some (PYMEM_DOMAIN_MEM, size).
Proof.
  intros Hn Hbig.
  destruct (allocate_total number_objects h) as (p & h1 & Hrun).
  exists p, h1, (size_t_mul sizeof number_objects). split; [done|].
  destruct (allocate_inv _ _ _ _ Hrun) as (d & size & e & -> & -> & -> & Hp).
  assert ((number_objects =? 1) = false) as Hb by lia. rewrite Hb in Hp.
  assert (size_t_mul sizeof number_objects < sizeof * number_objects) as Hlt.
  { unfold size_t_mul, size_t_wrap.
    pose proof (Z.mod_pos_bound (sizeof * number_objects) (2 ^ SIZE_WIDTH)) as Hm.
    unfold SIZE_WIDTH in *. lia. }
  destruct p as [a|].
  - destruct Hp as (_ & _ & ->). split; [done|]. split; [done|]. split; [done|].
    intros a' [= <-]. simpl. apply lookup_insert_eq.
  - destruct Hp as (_ & ->). done.
Qed.

(** X4: [deallocate] looks at its count only to tell one from not one.  A
    block from [allocate(n)] is released by [deallocate(_, m)] whenever [m]
    is one exactly if [n] is, whatever [m] is otherwise; when one count is
    one and the other is not, the release goes to the other allocator family
    and the host refuses it. *)
Theorem deallocate_count_discriminant (n m : Z) (h : Host) (a : addr) (h1 : Host) :
  allocate n h = Done (Some a) h1 →
  ((n =? 1) = (m =? 1) →
     ∃ h2, deallocate (Some a) m h1 = Done () h2
           ∧ blocks h2 = blocks h ∧ capacity h2 = capacity h)
  ∧ ((n =? 1) ≠ (m =? 1) →
     deallocate (Some a) m h1 = Undefined (DomainMismatch a)).
Proof.
  intros Hrun.
  destruct (allocate_inv _ _ _ _ Hrun) as (d & size & e & -> & -> & -> & -> & Hle & ->).
  pose proof (fresh_addr_not_block h) as Hfresh.
  unfold deallocate, PyObject_Free, PyMem_Free.
  split; intros Hm; destruct (n =? 1), (m =? 1); try done.
  - erewrite host_free_live by (simpl; apply lookup_insert_eq).
    eexists. split; [reflexivity|]. simpl.
    split; [by apply delete_insert_id | lia].
  - erewrite host_free_live by (simpl; apply lookup_insert_eq).
    eexists. split; [reflexivity|]. simpl.
    split; [by apply delete_insert_id | lia].
  - eapply host_free_other_domain; [simpl; apply lookup_insert_eq | done].
  - eapply host_free_other_domain; [simpl; apply lookup_insert_eq | done].
Qed.

(** X5: releasing the same block a second time is refused by the host:
    [deallocate] keeps no record of what it released. *)
Theorem deallocate_twice_invalid (n : Z) (h : Host) (a : addr) (h1 : Host) :
  allocate n h = Done (Some a) h1 →
  ∃ h2, deallocate (Some a) n h1 = Done () h2
        ∧ deallocate (Some a) n h2 = Undefined (InvalidFree a).
Proof.
  intros Hrun.
  destruct (allocate_inv _ _ _ _ Hrun) as (d & size & e & -> & -> & -> & -> & Hle & ->).
  unfold deallocate, PyObject_Free, PyMem_Free.
  destruct (n =? 1).
  - erewrite host_free_live by (simpl; apply lookup_insert_eq).
    eexists. split; [reflexivity|].
    unfold host_free. simpl. by rewrite lookup_delete_eq.
  - erewrite host_free_live by (simpl; apply lookup_insert_eq).
    eexists. split; [reflexivity|].
    unfold host_free. simpl. by rewrite lookup_delete_eq.
Qed.

(** X6: [deallocate(nullptr, n)] returns for every count and releases
    nothing. *)
Theorem deallocate_null (n : Z) (h : Host) :
  ∃ h', deallocate None n h = Done () h'
        ∧ blocks h' = blocks h ∧ capacity h' = capacity h
        ∧ objects h' = objects h ∧ curexc h' = curexc h
        ∧ events h' = events h ++ [if n =? 1 then Call_PyObject_Free None
                                   else Call_PyMem_Free None].
Proof.
  unfold deallocate. destruct (n =? 1); eexists; (split; [reflexivity|]); done.
Qed.

(** X7: [dispose] is the counterpart of [allocate(1)] only.  With a
    destructor that returns and leaves the allocator alone, disposing of a
    block from [allocate(1)] gives the storage back, and disposing of a
    block from any other [allocate(n)] runs the destructor and then hands
    the block to the wrong allocator family. *)
Theorem dispose_pairs_with_single_allocation
    (n : Z) (h : Host) (a : addr) (h1 h1' : Host) :
  allocate n h = Done (Some a) h1 →
  destroy (Some a) h1 = Done () h1' →
  blocks h1' = blocks h1 →
  (n = 1 → ∃ h2, dispose (Some a) h1 = Done () h2 ∧ blocks h2 = blocks h)
  ∧ (n ≠ 1 → dispose (Some a) h1 = Undefined (DomainMismatch a)).
Proof.
  intros Hrun Hd Hsame.
  destruct (allocate_inv _ _ _ _ Hrun) as (d & size & e & -> & -> & -> & -> & Hle & ->).
  pose proof (fresh_addr_not_block h) as Hfresh.
  unfold dispose, bind. rewrite Hd.
  change (deallocate (Some (fresh_addr h)) 1) with (PyObject_Free (Some (fresh_addr h))).
  unfold PyObject_Free. simpl in Hsame.
  split; intros Hn.
  - subst n. simpl in Hsame.
    erewrite host_free_live by (simpl; rewrite Hsame; apply lookup_insert_eq).
    eexists. split; [reflexivity|]. simpl. rewrite Hsame.
    by apply delete_insert_id.
  - assert ((n =? 1) = false) as Hb by lia. rewrite Hb in Hsame.
    eapply host_free_other_domain;
      [simpl; rewrite Hsame; apply lookup_insert_eq | done].
Qed.

End AllocatorMore.

Lemma allocate_bulk_exact_size_witness :
  ∃ p h1,
    PythonAllocator.allocate (T := trivial_T) 3 empty_host = Done p h1
    ∧ events h1 = [Call_PyMem_Malloc 144 p]
    ∧ ∀ a, p = Some a → blocks h1 !! a = Some (PYMEM_DOMAIN_MEM, 144).
Proof.
  destruct (allocate_bulk_exact_size (T := trivial_T) 3 empty_host)
    as (p & h1 & Hrun & Hev & Hblock); [lia | vm_compute; split; congruence |].
  exists p, h1. split; [exact Hrun|]. split; [exact Hev | exact Hblock].
Defined.

Lemma allocate_bulk_size_wraps_witness :
  ∃ p h1 size,
    PythonAllocator.allocate (T := trivial_T) (2 ^ 60) empty_host = Done p h1
    ∧ events h1 = [Call_PyMem_Malloc size p]
    ∧ size = 0.
Proof.
  destruct (allocate_bulk_size_wraps (T := trivial_T) (2 ^ 60) empty_host)
    as (p & h1 & size & Hrun & Hev & Hsz & _); [lia | vm_compute; congruence |].
  exists p, h1, size. split; [exact Hrun|]. split; [exact Hev|].
  rewrite Hsz. reflexivity.
Defined.

Lemma deallocate_count_discriminant_witness :
  let a := fresh_addr empty_host in
  ∃ h1, PythonAllocator.allocate (T := trivial_T) 3 empty_host = Done (Some a) h1
        ∧ (∃ h2, PythonAllocator.deallocate (Some a) 5 h1 = Done () h2
                 ∧ blocks h2 = blocks empty_host)
        ∧ PythonAllocator.deallocate (Some a) 1 h1 = Undefined (DomainMismatch a).
Proof.
  intros a.
  destruct (allocate_total (T := trivial_T) 3 empty_host) as (p & h1 & Hrun).
  assert (p = Some a) as ->.
  { vm_compute in Hrun. by injection Hrun as <- _. }
  exists h1. split; [exact Hrun|].
  destruct (deallocate_count_discriminant (T := trivial_T) 3 5 empty_host a h1 Hrun)
    as [Hok _].
  destruct (deallocate_count_discriminant (T := trivial_T) 3 1 empty_host a h1 Hrun)
    as [_ Hbad].
  split.
  - destruct (Hok eq_refl) as (h2 & Hfree & Hb & _). by exists h2.
  - apply Hbad. vm_compute. discriminate.
Defined.

Lemma deallocate_twice_invalid_witness :
  let a := fresh_addr empty_host in
  ∃ h1 h2, PythonAllocator.allocate (T := trivial_T) 1 empty_host = Done (Some a) h1
           ∧ PythonAllocator.deallocate (Some a) 1 h1 = Done () h2
           ∧ PythonAllocator.deallocate (Some a) 1 h2 = Undefined (InvalidFree a).
Proof.
  intros a.
  destruct (allocate_total (T := trivial_T) 1 empty_host) as (p & h1 & Hrun).
  assert (p = Some a) as ->.
  { vm_compute in Hrun. by injection Hrun as <- _. }
  destruct (deallocate_twice_invalid (T := trivial_T) 1 empty_host a h1 Hrun)
    as (h2 & Hfree & Hagain).
  by exists h1, h2.
Defined.

Lemma dispose_pairs_with_single_allocation_witness :
  let a := fresh_addr empty_host in
  ∃ h1 h3, PythonAllocator.allocate (T := trivial_T) 1 empty_host = Done (Some a) h1
           ∧ PythonAllocator.dispose (T := trivial_T) (Some a) h1 = Done () h3
           ∧ blocks h3 = blocks empty_host.
Proof.
  intros a.
  destruct (allocate_total (T := trivial_T) 1 empty_host) as (p & h1 & Hrun).
  assert (p = Some a) as ->.
  { vm_compute in Hrun. by injection Hrun as <- _. }
  destruct (dispose_pairs_with_single_allocation (T := trivial_T) 1 empty_host a h1
              (record (Call_destructor (Some a)) h1) Hrun eq_refl eq_refl)
    as [Hone _].
  destruct (Hone eq_refl) as (h3 & Hdisp & Hb).
  by exists h1, h3.
Defined.

(** ** Borrowed references *)

(** X9: whatever the handle and the type check, the checked constructor of
    [BorrowedGreenlet] has two outcomes only: it returns with the host
    untouched, or it throws the [TypeError].  After a throw a failure is
    always pending: the one that was pending before, if any. *)
Theorem BorrowedGreenlet_new_outcomes
    (check : ptr → Host → bool) (it : BorrowedObject) (h : Host) :
  (∃ g, BorrowedGreenlet.new check it h = Done g h)
  ∨ (∃ h', BorrowedGreenlet.new check it h = Thrown (Exc_TypeError "Expected a greenlet") h'
           ∧ is_Some (curexc h')
           ∧ (∀ e, curexc h = Some e → curexc h' = Some e)).
Proof.
  destruct (check (BorrowedReference.to_ptr it) h) eqn:Hc.
  - left. eexists. by apply BorrowedGreenlet_new_accept.
  - right. rewrite BorrowedGreenlet_new_reject by done.
    unfold TypeError.raise, bind.
    destruct (curexc h) as [e|] eqn:Hp.
    + rewrite (TypeError_new_pending _ _ e) by done. exists h.
      split; [done|]. rewrite Hp. split; [by eexists | done].
    + rewrite TypeError_new_empty by done. eexists. split; [reflexivity|].
      split; [by eexists | done].
Qed.

Lemma BorrowedGreenlet_new_outcomes_witness :
  let h := set_curexc (Some (mkPyErr "ValueError" "earlier")) sample_host in
  ∃ h', BorrowedGreenlet.new exact_type_check (BorrowedReference.mk None) h
          = Thrown (Exc_TypeError "Expected a greenlet") h'
        ∧ curexc h' = Some (mkPyErr "ValueError" "earlier").
Proof.
  intros h.
  destruct (BorrowedGreenlet_new_outcomes exact_type_check (BorrowedReference.mk None) h)
    as [[g Hdone] | (h' & Hrun & _ & Hkeep)].
  - vm_compute in Hdone. discriminate.
  - exists h'. split; [exact Hrun|]. apply Hkeep. reflexivity.
Defined.

(** X10: when the checked constructor returns, the type check accepted the
    handle, and the result and the host state are those of the unchecked
    constructor [BorrowedGreenlet(PyGreenlet* it)] on the same handle. *)
Theorem BorrowedGreenlet_checked_agrees_with_unchecked
    (check : ptr → Host → bool) (it : BorrowedObject) (h : Host)
    (g : BorrowedGreenlet.t) (h' : Host) :
  BorrowedGreenlet.new check it h = Done g h' →
  check (BorrowedReference.to_ptr it) h = true
  ∧ BorrowedGreenlet.new_from_ptr (BorrowedReference.to_ptr it) h = Done g h'.
Proof.
  intros Hrun. destruct (check (BorrowedReference.to_ptr it) h) eqn:Hc.
  - rewrite BorrowedGreenlet_new_accept in Hrun by done. by injection Hrun as <- <-.
  - rewrite BorrowedGreenlet_new_reject in Hrun by done.
    unfold TypeError.raise, bind in Hrun.
    destruct (curexc h) as [e|] eqn:Hp.
    + by rewrite (TypeError_new_pending _ _ e) in Hrun.
    + by rewrite TypeError_new_empty in Hrun.
Qed.

Lemma BorrowedGreenlet_checked_agrees_with_unchecked_witness :
  BorrowedGreenlet.new_from_ptr (Some 1%positive) sample_host
  = Done (BorrowedGreenlet.mk (BorrowedReference.mk (Some 1%positive))) sample_host.
Proof.
  apply (BorrowedGreenlet_checked_agrees_with_unchecked exact_type_check
           (BorrowedReference.mk (Some 1%positive))).
  vm_compute. reflexivity.
Defined.

(** X11: once a [TypeError] has been built a failure is pending, and
    building further ones changes nothing in the host: later messages never
    replace what the indicator holds. *)
Theorem TypeError_first_failure_wins (w1 w2 : string) (h : Host) (x : TypeError.t) (h1 : Host) :
  TypeError.new w1 h = Done x h1 →
  is_Some (curexc h1)
  ∧ TypeError.new w2 h1 = Done (TypeError.mk w2) h1.
Proof.
  intros Hrun. destruct (curexc h) as [e|] eqn:Hp.
  - rewrite (TypeError_new_pending _ _ e) in Hrun by done. injection Hrun as _ <-.
    rewrite Hp. split; [by eexists|].
    by apply (TypeError_new_pending _ _ e).
  - rewrite TypeError_new_empty in Hrun by done. injection Hrun as _ <-.
    split; [by eexists|].
    by apply (TypeError_new_pending _ _ (mkPyErr PyExc_TypeError w1)).
Qed.

Lemma TypeError_first_failure_wins_witness :
  ∃ h1, TypeError.new "first" sample_host = Done (TypeError.mk "first") h1
        ∧ TypeError.new "second" h1 = Done (TypeError.mk "second") h1.
Proof.
  eexists. split; [reflexivity|].
  destruct (TypeError_first_failure_wins "first" "second" sample_host _ _ eq_refl)
    as (_ & Hagain).
  exact Hagain.
Defined.

(** ** Owned references *)

(** X12: copying an [APIResult] and destroying the copy is a round trip on
    the interpreter's objects: every object is back as it was, and the host
    has seen one [Py_INCREF] followed by one [Py_DECREF]. *)
Theorem APIResult_copy_delete_roundtrip (x : APIResult.t) (a : addr) (h : Host) :
  APIResult.p x = Some a → 0 < refcnt h a →
  ∃ y h1 h2,
    APIResult.copy x h = Done y h1
    ∧ APIResult.delete y h1 = Done () h2
    ∧ APIResult.p y = APIResult.p x
    ∧ objects h2 = objects h
    ∧ events h2 = events h ++ [Call_Py_INCREF a; Call_Py_DECREF a].
Proof.
  intros Hp Hpos. destruct (refcnt_positive_live h a Hpos) as (o & Ho & Hrc).
  set (h1 := record (Call_Py_INCREF a)
               (set_objects <[a := mkPyObject (ob_refcnt o + 1) (ob_type o)]> h)).
  assert (APIResult.copy x h = Done (APIResult.mk (Some a)) h1) as Hcopy.
  { unfold APIResult.copy, bind. simpl. rewrite Hp. simpl.
    unfold Py_INCREF. by rewrite Ho. }
  assert (objects h1 !! a = Some (mkPyObject (ob_refcnt o + 1) (ob_type o))) as Ho1.
  { simpl. apply lookup_insert_eq. }
  exists (APIResult.mk (Some a)), h1.
  unfold APIResult.delete. simpl. unfold Py_DECREF. rewrite Ho1. simpl.
  assert ((ob_refcnt o + 1 - 1 =? 0) = false) as -> by lia.
  eexists. split; [exact Hcopy|]. split; [reflexivity|]. split; [done|]. split.
  - simpl. rewrite insert_insert_eq. apply insert_id. rewrite Ho. f_equal.
    destruct o as [rc ty]. simpl. f_equal. lia.
  - simpl. by rewrite <- app_assoc.
Qed.

Lemma APIResult_copy_delete_roundtrip_witness :
  ∃ y h1 h2,
    APIResult.copy (APIResult.mk (Some 2%positive)) sample_host = Done y h1
    ∧ APIResult.delete y h1 = Done () h2
    ∧ objects h2 = objects sample_host.
Proof.
  destruct (APIResult_copy_delete_roundtrip (APIResult.mk (Some 2%positive)) 2%positive
              sample_host) as (y & h1 & h2 & Hc & Hd & _ & Ho & _);
    [reflexivity | vm_compute; reflexivity |].
  by exists y, h1, h2.
Defined.

(** X13: the constructor of [APIResult] takes over a reference and does not
    add one.  Destroying the value that holds the last reference deallocates
    the object; so two values built from the same raw pointer to an object
    with a single reference make the second destructor release a dead
    object. *)
Theorem APIResult_two_owners_of_one_reference (a : addr) (h : Host) :
  refcnt h a = 1 →
  (∃ h1, APIResult.delete (APIResult.mk (Some a)) h = Done () h1
         ∧ objects h1 !! a = None)
  ∧ bind (APIResult.new (Some a)) (λ x,
      bind (APIResult.new (Some a)) (λ y,
        bind (APIResult.delete x) (λ _, APIResult.delete y))) h
    = Undefined (UseAfterFree a).
Proof.
  intros Hone.
  destruct (Py_DECREF_spec a h) as (h1 & Hrun & _ & _ & _ & _ & Hgone); [lia|].
  specialize (Hgone Hone). split.
  - by exists h1.
  - unfold bind, APIResult.new, ret, APIResult.delete. simpl. rewrite Hrun.
    unfold Py_DECREF. by rewrite Hgone.
Qed.

Lemma APIResult_two_owners_of_one_reference_witness :
  bind (APIResult.new (Some 2%positive)) (λ x,
    bind (APIResult.new (Some 2%positive)) (λ y,
      bind (APIResult.delete x) (λ _, APIResult.delete y))) sample_host
  = Undefined (UseAfterFree 2%positive).
Proof.
  apply (APIResult_two_owners_of_one_reference 2%positive sample_host).
  reflexivity.
Defined.

(** X14: whatever copies and destructions are run over values that own
    their references, no value left alive dangles: the object it holds is
    still allocated and has a positive count. *)
Theorem APIResult_never_dangles (cs : list api_cmd) (live : list APIResult.t) (h : Host) :
  owned live h →
  ∃ live' h',
    run_cmds cs live h = Done live' h'
    ∧ ∀ x a, x ∈ live' → APIResult.p x = Some a →
        ∃ o, objects h' !! a = Some o ∧ 0 < ob_refcnt o.
Proof.
  intros Hown.
  destruct (run_cmds_accounting cs live h Hown) as (live' & h' & Hrun & Hown' & _).
  exists live', h'. split; [done|].
  intros x a Hin Hp. apply list_elem_of_lookup in Hin as [i Hi].
  pose proof (held_member a live' i x Hi Hp) as Hheld.
  specialize (Hown' a Hheld).
  destruct (refcnt_positive_live h' a) as (o & Ho & Hrc); [lia|].
  exists o. split; [done | lia].
Qed.

Lemma APIResult_never_dangles_witness :
  let x := APIResult.mk (Some 2%positive) in
  ∃ h', run_cmds [ACopy 0; ADestroy 0] [x] sample_host = Done [x] h'
        ∧ ∃ o, objects h' !! 2%positive = Some o ∧ 0 < ob_refcnt o.
Proof.
  intros x.
  destruct (APIResult_never_dangles [ACopy 0; ADestroy 0]%nat [x] sample_host)
    as (live' & h' & Hrun & Hlive).
  { intros a. unfold held. rewrite filter_cons, filter_nil. simpl.
    case_decide as Ha; simpl; [|lia].
    injection Ha as <-. intros _. vm_compute. discriminate. }
  assert (live' = [x]) as ->.
  { vm_compute in Hrun. by injection Hrun as <- _. }
  exists h'. split; [exact Hrun|].
  apply (Hlive x); [apply list_elem_of_here | reflexivity].
Defined.

(** X15: the slot of an [OutParam] is a plain pointer: storing through it
    again overwrites what was there without releasing it.  The destructor
    then issues one [Py_DECREF], for the second reference, and none for the
    first, which is leaked. *)
Theorem OutParam_overwrite_leaks (x : OutParam.t) (a b : addr) (h : Host) :
  a ≠ b → 0 < refcnt h b →
  ∃ h', OutParam.delete (OutParam.store (OutParam.store x (Some a)) (Some b)) h
          = Done () h'
        ∧ events h' = events h ++ [Call_Py_DECREF b]
        ∧ decrefs h' a = decrefs h a
        ∧ decrefs h' b = decrefs h b + 1.
Proof.
  intros Hne Hpos.
  destruct (OutParam_delete_held (OutParam.mk (Some b)) b h eq_refl Hpos)
    as (h' & Hrun & _ & _ & Hev).
  exists h'. split; [exact Hrun|]. split; [exact Hev|].
  destruct (decrefs_after_decref h h' b a Hev) as [Ha _].
  destruct (decrefs_after_decref h h' b b Hev) as [Hb _].
  rewrite decide_False in Ha by congruence. rewrite decide_True in Hb by done.
  split; lia.
Qed.

Lemma OutParam_overwrite_leaks_witness :
  ∃ h', OutParam.delete
          (OutParam.store (OutParam.store (OutParam.mk nullptr) (Some 1%positive))
             (Some 2%positive)) sample_host = Done () h'
        ∧ events h' = [Call_Py_DECREF 2%positive]
        ∧ decrefs h' 1%positive = 0.
Proof.
  destruct (OutParam_overwrite_leaks (OutParam.mk nullptr) 1%positive 2%positive sample_host)
    as (h' & Hrun & Hev & Hleak & _); [discriminate | vm_compute; reflexivity |].
  exists h'. split; [exact Hrun|]. split; [exact Hev|]. rewrite Hleak. reflexivity.
Defined.
